(** * The section-driven record manager of [app.tsx]

    A shallow embedding of the [App] component: its six [useState] cells,
    its handlers ([loadRecords], [handleSave], [handleDelete],
    [handleFileUpload], [openCreateDialog], [openEditDialog]) and the
    callbacks wired in the JSX (tab change, dialog open-change, cancel).

    The handlers are [async]: each one runs up to its [await fetch(...)],
    leaves a pending call behind, and is resumed when that call settles.
    The embedding makes this explicit.  A world holds the component state,
    the calls in flight (each with the continuation of the handler that
    issued it, closed over the values the handler captured), and the
    output the handlers produce ([toast], [console.error]).  Events are the
    user's actions and the settling of calls in flight, in any order. *)

From stdpp Require Import gmap strings list pretty.

Open Scope string_scope.
Open Scope list_scope.

(** ** JavaScript values and exceptions *)

(** What [response.json()] can produce.  [JNum n] is the number [n], an
    integer.  Whether it is zero is all the handlers test of a number;
    its string form is stated for the safe integers only (see
    [shown_exactly]). *)
#[local] Unset Elimination Schemes.
Inductive json : Type :=
| JNull
| JBool (b : bool)
| JNum (n : Z)
| JStr (s : string)
| JArr (items : list json)
| JObj (members : list (string * json)).
#[local] Set Elimination Schemes.

(** The result of reading a property is [undefined] ([None]) or a value. *)
Definition jsval : Type := option json.

(** A computation inside [try { ... }]: a value, or a thrown [Error] of
    which the handlers only ever read [.message]. *)
Inductive result (A : Type) : Type :=
| Ok (a : A)
| Throw (message : string).
Arguments Ok {A} a.
Arguments Throw {A} message.

#[global] Instance result_ret : MRet result := fun _ a => Ok a.
#[global] Instance result_bind : MBind result := fun _ _ f m =>
  match m with
  | Ok a => f a
  | Throw e => Throw e
  end.

(** [!!v], the test behind [||] and [? :]. *)
Definition truthy (v : jsval) : bool :=
  match v with
  | None => false
  | Some JNull => false
  | Some (JBool b) => b
  | Some (JNum n) => negb (n =? 0)%Z
  | Some (JStr s) => negb (String.eqb s "")
  | Some (JArr _) => true
  | Some (JObj _) => true
  end.

(** [a || b] *)
Definition js_or (a : jsval) (b : json) : json :=
  match a with
  | Some v => if truthy a then v else b
  | None => b
  end.

(** The last member named [key]: [JSON.parse] keeps the last duplicate. *)
Fixpoint member (key : string) (members : list (string * json)) : jsval :=
  match members with
  | [] => None
  | (k, v) :: rest =>
      match member key rest with
      | Some v' => Some v'
      | None => if String.eqb k key then Some v else None
      end
  end.

(** The message of the [TypeError] thrown on reading a property of [null]. *)
Definition TypeError_null (key : string) : string :=
  "Cannot read properties of null (reading '" +:+ key +:+ "')".

(** [v.key] for the keys the handlers read ([error], [records], [url],
    [fileName]), none of which is inherited from a prototype. *)
Definition get_prop (v : json) (key : string) : result jsval :=
  match v with
  | JNull => Throw (TypeError_null key)
  | JObj members => Ok (member key members)
  | _ => Ok None
  end.

(** [String(v)], which [new Error(v)] applies to its argument.  On a
    number it is the decimal form, which is what [String] gives on the
    integers below 2^53 in magnitude; statements about the string form of
    a value carry [shown_exactly]. *)
Fixpoint ToString (v : json) : string :=
  match v with
  | JNull => "null"
  | JBool b => if b then "true" else "false"
  | JNum n => pretty n
  | JStr s => s
  | JArr items =>
      (fix join (l : list json) : string :=
         match l with
         | [] => ""
         | x :: rest =>
             let sx := match x with JNull => "" | _ => ToString x end in
             match rest with
             | [] => sx
             | _ :: _ => sx +:+ "," +:+ join rest
             end
         end) items
  | JObj _ => "[object Object]"
  end.

(** ** The network *)

(** [projectId] and [publicAnonKey] come from [./utils/supabase/info]. *)
Record Info : Type := {
  projectId : string;
  publicAnonKey : string
}.

Inductive Method : Type := GET | POST | PUT | DELETE.

Inductive RequestBody : Type :=
| JsonBody (data : json)          (* JSON.stringify(data) *)
| FormDataBody (file : string).   (* a FormData with the one entry 'file' *)

Record Request : Type := {
  method : Method;
  url : string;
  headers : list (string * string);
  reqBody : option RequestBody
}.

(** What [await response.json()] gives: the parsed body, or a rejection. *)
Inductive BodyOutcome : Type :=
| BodyJson (v : json)
| BodyInvalid (message : string).

Record Response : Type := {
  status : nat;
  body : BodyOutcome
}.

(** [response.ok] *)
Definition ok (r : Response) : bool :=
  (200 <=? status r)%nat && (status r <=? 299)%nat.

Definition response_json (r : Response) : result json :=
  match body r with
  | BodyJson v => Ok v
  | BodyInvalid m => Throw m
  end.

(** How a [fetch] settles: it rejects (transport failure) or resolves to a
    response.  The two awaits of a handler, on [fetch] and on
    [response.json()], touch no state in between and are taken in one
    step. *)
Inductive FetchOutcome : Type :=
| Rejected (message : string)
| Resolved (r : Response).

(** ** The component *)

Inductive SectionType : Type :=
| funding_opportunity
| application
| budget
| budget_code
| grant
| subgrantee_award
| contract
| invoice
| compliance.

#[global] Instance SectionType_eq_dec : EqDecision SectionType.
Proof. solve_decision. Defined.

(** The string a [SectionType] is. *)
Definition section_name (s : SectionType) : string :=
  match s with
  | funding_opportunity => "funding_opportunity"
  | application => "application"
  | budget => "budget"
  | budget_code => "budget_code"
  | grant => "grant"
  | subgrantee_award => "subgrantee_award"
  | contract => "contract"
  | invoice => "invoice"
  | compliance => "compliance"
  end.

(** [interface Record { id: string; [key: string]: any }] *)
Record DataRecord : Type := {
  id : string;
  fields : list (string * json)
}.

(** The [useState] cells of [App]. *)
Record AppState : Type := {
  showLanding : bool;
  activeSection : SectionType;
  records : json;
  loading : bool;
  dialogOpen : bool;
  editingRecord : option DataRecord
}.

Inductive Toast : Type :=
| ToastSuccess (message : string)
| ToastError (message : string).

(** The rest of an [async] handler after its [await fetch(...)], with the
    variables of the render it was created in. *)
Inductive Cont : Type :=
| K_loadRecords (section : SectionType)
| K_handleSave (isEditing : bool) (activeSection : SectionType)
| K_handleDelete (activeSection : SectionType).

Record World : Type := {
  app : AppState;
  inflight : gmap nat (Request * Cont);
  toasts : list Toast;
  console : list (string * string)
}.

(** *** State setters and output *)

Definition setShowLanding (b : bool) (w : World) : World :=
  {| app := {| showLanding := b;
               activeSection := activeSection (app w);
               records := records (app w);
               loading := loading (app w);
               dialogOpen := dialogOpen (app w);
               editingRecord := editingRecord (app w) |};
     inflight := inflight w; toasts := toasts w; console := console w |}.

Definition setActiveSection (v : SectionType) (w : World) : World :=
  {| app := {| showLanding := showLanding (app w);
               activeSection := v;
               records := records (app w);
               loading := loading (app w);
               dialogOpen := dialogOpen (app w);
               editingRecord := editingRecord (app w) |};
     inflight := inflight w; toasts := toasts w; console := console w |}.

Definition setRecords (v : json) (w : World) : World :=
  {| app := {| showLanding := showLanding (app w);
               activeSection := activeSection (app w);
               records := v;
               loading := loading (app w);
               dialogOpen := dialogOpen (app w);
               editingRecord := editingRecord (app w) |};
     inflight := inflight w; toasts := toasts w; console := console w |}.

Definition setLoading (b : bool) (w : World) : World :=
  {| app := {| showLanding := showLanding (app w);
               activeSection := activeSection (app w);
               records := records (app w);
               loading := b;
               dialogOpen := dialogOpen (app w);
               editingRecord := editingRecord (app w) |};
     inflight := inflight w; toasts := toasts w; console := console w |}.

Definition setDialogOpen (b : bool) (w : World) : World :=
  {| app := {| showLanding := showLanding (app w);
               activeSection := activeSection (app w);
               records := records (app w);
               loading := loading (app w);
               dialogOpen := b;
               editingRecord := editingRecord (app w) |};
     inflight := inflight w; toasts := toasts w; console := console w |}.

Definition setEditingRecord (r : option DataRecord) (w : World) : World :=
  {| app := {| showLanding := showLanding (app w);
               activeSection := activeSection (app w);
               records := records (app w);
               loading := loading (app w);
               dialogOpen := dialogOpen (app w);
               editingRecord := r |};
     inflight := inflight w; toasts := toasts w; console := console w |}.

Definition toast_success (m : string) (w : World) : World :=
  {| app := app w; inflight := inflight w;
     toasts := toasts w ++ [ToastSuccess m]; console := console w |}.

Definition toast_error (m : string) (w : World) : World :=
  {| app := app w; inflight := inflight w;
     toasts := toasts w ++ [ToastError m]; console := console w |}.

(** [console.error(label, error)], the error kept by its message. *)
Definition console_error (label m : string) (w : World) : World :=
  {| app := app w; inflight := inflight w;
     toasts := toasts w; console := console w ++ [(label, m)] |}.

(** [fetch(...)] up to the [await]: the call is in flight under a handle no
    other call in flight has, together with the rest of the handler. *)
Definition fetch (req : Request) (k : Cont) (w : World) : World :=
  {| app := app w;
     inflight := <[fresh (dom (inflight w)) := (req, k)]> (inflight w);
     toasts := toasts w; console := console w |}.

(** The call under handle [h] has settled. *)
Definition settle (h : nat) (w : World) : World :=
  {| app := app w; inflight := delete h (inflight w);
     toasts := toasts w; console := console w |}.

Section Handlers.

Variable info : Info.

Definition API_BASE : string :=
  "https://" +:+ projectId info +:+ ".supabase.co/functions/v1/make-server-6c78dd6b".

Definition Authorization : string * string :=
  ("Authorization", "Bearer " +:+ publicAnonKey info).

(** The collection path [`${API_BASE}/${section}`]. *)
Definition collection_url (section : SectionType) : string :=
  API_BASE +:+ "/" +:+ section_name section.

(** The record path [`${API_BASE}/${section}/${id}`]. *)
Definition record_url (section : SectionType) (i : string) : string :=
  API_BASE +:+ "/" +:+ section_name section +:+ "/" +:+ i.

(** The three lines every handler runs on [!response.ok]:
    [const error = await response.json();
     throw new Error(error.error || fallback);] *)
Definition throw_error_of {A : Type} (r : Response) (fallback : string) : result A :=
  error ← response_json r;
  e ← get_prop error "error";
  Throw (ToString (js_or e (JStr fallback))).

(** *** loadRecords *)

Definition loadRecords_request (section : SectionType) : Request :=
  {| method := GET; url := collection_url section;
     headers := [Authorization]; reqBody := None |}.

(** Up to [await fetch]. *)
Definition loadRecords (section : SectionType) (w : World) : World :=
  fetch (loadRecords_request section) (K_loadRecords section) (setLoading true w).

(** The [try] block after the fetch settled: the value given to
    [setRecords], or what is thrown. *)
Definition loadRecords_try (out : FetchOutcome) : result json :=
  match out with
  | Rejected m => Throw m
  | Resolved response =>
      if negb (ok response) then throw_error_of response "Failed to load records"
      else
        data ← response_json response;
        rs ← get_prop data "records";
        Ok (js_or rs (JArr []))
  end.

(** [try], [catch] and [finally] after the fetch settled. *)
Definition loadRecords_resume (section : SectionType) (out : FetchOutcome)
    (w : World) : World :=
  setLoading false
    match loadRecords_try out with
    | Ok v => setRecords v w
    | Throw m =>
        setRecords (JArr [])
          (toast_error ("Failed to load records: " +:+ m)
             (console_error ("Error loading " +:+ section_name section +:+ " records:") m w))
    end.

(** *** handleSave *)

Definition handleSave_request (st : AppState) (data : json) : Request :=
  let isEditing := bool_decide (is_Some (editingRecord st)) in
  {| method := if isEditing then PUT else POST;
     url := match editingRecord st with
            | Some r => record_url (activeSection st) (id r)
            | None => collection_url (activeSection st)
            end;
     headers := [("Content-Type", "application/json"); Authorization];
     reqBody := Some (JsonBody data) |}.

Definition handleSave (data : json) (w : World) : World :=
  let isEditing := bool_decide (is_Some (editingRecord (app w))) in
  fetch (handleSave_request (app w) data)
        (K_handleSave isEditing (activeSection (app w))) w.

Definition handleSave_try (out : FetchOutcome) : result unit :=
  match out with
  | Rejected m => Throw m
  | Resolved response =>
      if negb (ok response) then throw_error_of response "Failed to save record"
      else Ok tt
  end.

Definition handleSave_resume (isEditing : bool) (activeSection : SectionType)
    (out : FetchOutcome) (w : World) : World :=
  match handleSave_try out with
  | Ok _ =>
      loadRecords activeSection
        (setEditingRecord None
           (setDialogOpen false
              (toast_success (if isEditing then "Record updated successfully"
                              else "Record created successfully") w)))
  | Throw m =>
      toast_error ("Failed to save record: " +:+ m)
        (console_error ("Error saving " +:+ section_name activeSection +:+ " record:") m w)
  end.

(** *** handleDelete *)

Definition handleDelete_request (section : SectionType) (i : string) : Request :=
  {| method := DELETE; url := record_url section i;
     headers := [Authorization]; reqBody := None |}.

(** [confirmed] is what [confirm(...)] returned. *)
Definition handleDelete (i : string) (confirmed : bool) (w : World) : World :=
  if negb confirmed then w
  else fetch (handleDelete_request (activeSection (app w)) i)
             (K_handleDelete (activeSection (app w))) w.

Definition handleDelete_try (out : FetchOutcome) : result unit :=
  match out with
  | Rejected m => Throw m
  | Resolved response =>
      if negb (ok response) then throw_error_of response "Failed to delete record"
      else Ok tt
  end.

Definition handleDelete_resume (activeSection : SectionType)
    (out : FetchOutcome) (w : World) : World :=
  match handleDelete_try out with
  | Ok _ => loadRecords activeSection (toast_success "Record deleted successfully" w)
  | Throw m =>
      toast_error ("Failed to delete record: " +:+ m)
        (console_error ("Error deleting " +:+ section_name activeSection +:+ " record:") m w)
  end.

(** *** handleFileUpload

    It reads and writes no state: its promise goes to the form that
    called it, resolved with [{url, fileName}] or rejected. *)

Definition handleFileUpload_request (file : string) : Request :=
  {| method := POST; url := API_BASE +:+ "/upload";
     headers := [Authorization]; reqBody := Some (FormDataBody file) |}.

Definition handleFileUpload_resume (out : FetchOutcome) : result (jsval * jsval) :=
  match out with
  | Rejected m => Throw m
  | Resolved response =>
      if negb (ok response) then throw_error_of response "Failed to upload file"
      else
        data ← response_json response;
        u ← get_prop data "url";
        f ← get_prop data "fileName";
        Ok (u, f)
  end.

(** *** The dialog *)

Definition openCreateDialog (w : World) : World :=
  setDialogOpen true (setEditingRecord None w).

Definition openEditDialog (record : DataRecord) (w : World) : World :=
  setDialogOpen true (setEditingRecord (Some record) w).

(** [onCancel] of the form. *)
Definition onCancel (w : World) : World :=
  setEditingRecord None (setDialogOpen false w).

(** *** Events *)

Inductive Event : Type :=
| GetStarted                               (* onGetStarted of the landing page *)
| Home                                     (* the Home button *)
| TabChange (v : SectionType)              (* onValueChange of Tabs *)
| AddNew                                   (* the Add New button *)
| EditClick (record : DataRecord)          (* the edit button of a row *)
| DeleteClick (i : string) (confirmed : bool) (* the delete button of a row *)
| DialogOpenChange (open : bool)           (* onOpenChange of Dialog *)
| FormCancel                               (* onCancel of the form *)
| FormSave (data : json)                   (* onSave of the form *)
| Settle (h : nat) (out : FetchOutcome).   (* the call under h settles *)

(** [setActiveSection(v)] and the effect that depends on
    [[activeSection]]: the effect runs when the value has changed. *)
Definition onValueChange (v : SectionType) (w : World) : World :=
  if decide (v = activeSection (app w)) then w
  else loadRecords v (setActiveSection v w).

Definition resume (k : Cont) (out : FetchOutcome) (w : World) : World :=
  match k with
  | K_loadRecords section => loadRecords_resume section out w
  | K_handleSave isEditing section => handleSave_resume isEditing section out w
  | K_handleDelete section => handleDelete_resume section out w
  end.

Definition step (w : World) (ev : Event) : World :=
  match ev with
  | GetStarted => setShowLanding false w
  | Home => setShowLanding true w
  | TabChange v => onValueChange v w
  | AddNew => openCreateDialog w
  | EditClick record => openEditDialog record w
  | DeleteClick i confirmed => handleDelete i confirmed w
  | DialogOpenChange open => setDialogOpen open w
  | FormCancel => onCancel w
  | FormSave data => handleSave data w
  | Settle h out =>
      match inflight w !! h with
      | Some (_, k) => resume k out (settle h w)
      | None => w
      end
  end.

Definition run (w : World) (evs : list Event) : World := foldl step w evs.

(** The first render, and the effect it runs. *)
Definition initial_state : AppState :=
  {| showLanding := true;
     activeSection := funding_opportunity;
     records := JArr [];
     loading := false;
     dialogOpen := false;
     editingRecord := None |}.

Definition mount : World :=
  loadRecords funding_opportunity
    {| app := initial_state; inflight := ∅; toasts := []; console := [] |}.

End Handlers.

(** ** The edit session the dialog state stands for *)

Inductive Mode : Type := Closed | Creating | Editing.

Definition mode (st : AppState) : Mode :=
  if dialogOpen st then
    match editingRecord st with
    | Some _ => Editing
    | None => Creating
    end
  else Closed.

Definition target (st : AppState) : option DataRecord := editingRecord st.

(** What a settled list call leaves in [records]. *)
Definition records_after (out : FetchOutcome) : json :=
  match loadRecords_try out with
  | Ok v => v
  | Throw _ => JArr []
  end.





(** The call did not succeed: it was rejected, or the response is not ok. *)
Definition failed (out : FetchOutcome) : bool :=
  match out with
  | Rejected _ => true
  | Resolved r => negb (ok r)
  end.

(** A record is remembered only while the dialog is open. *)
Definition target_only_when_open (st : AppState) : Prop :=
  is_Some (editingRecord st) → dialogOpen st = true.

(** Events by kind, for statements over traces. *)
Definition is_dialog_close (ev : Event) : bool :=
  match ev with
  | DialogOpenChange false => true
  | _ => false
  end.

Definition is_edit_click (ev : Event) : bool :=
  match ev with
  | EditClick _ => true
  | _ => false
  end.


(** ** The section table and what is rendered from it *)

(** The form components imported at the top of the file. *)
Inductive FormComponentT : Type :=
| FundingOpportunityForm
| ApplicationForm
| BudgetForm
| BudgetCodeForm
| GrantForm
| SubGranteeAwardForm
| ContractForm
| InvoiceForm
| ComplianceForm.

Record SectionConfig : Type := {
  title : string;
  description : string;
  FormComponent : FormComponentT;
  displayFields : list string
}.

(** The object literal [sectionConfig], its properties in source order. *)
Definition sectionConfig : list (string * SectionConfig) :=
  [ ("funding_opportunity",
     {| title := "Funding Opportunities";
        description := "Manage funding opportunities and grant announcements";
        FormComponent := FundingOpportunityForm;
        displayFields := ["fundingOpportunityTitle"; "fundingAgency"; "applicationDeadline"] |});
    ("application",
     {| title := "Applications";
        description := "Track grant applications and proposals";
        FormComponent := ApplicationForm;
        displayFields := ["programArea"; "estimatedTotalBudget"; "reviewers"] |});
    ("budget",
     {| title := "Budget";
        description := "Manage budget codes and financial tracking";
        FormComponent := BudgetForm;
        displayFields := ["magicBudgetCodes"; "functionalArea"; "costCenter"] |});
    ("budget_code",
     {| title := "Budget Codes";
        description := "Manage individual budget line items";
        FormComponent := BudgetCodeForm;
        displayFields := ["projectName"; "bli"; "requestedAmount"; "approvedAmount"] |});
    ("grant",
     {| title := "Grants";
        description := "Active grants and awards management";
        FormComponent := GrantForm;
        displayFields := ["approvedAwardAmount"; "periodOfPerformanceStartDate"; "grantAnalystPOC"] |});
    ("subgrantee_award",
     {| title := "Sub Grantee Awards";
        description := "Manage subrecipient awards and monitoring";
        FormComponent := SubGranteeAwardForm;
        displayFields := ["subrecipientName"; "awardAmount"; "reportingFrequency"] |});
    ("contract",
     {| title := "Contracts";
        description := "Procurement and contract management";
        FormComponent := ContractForm;
        displayFields := ["vendorName"; "contractValue"; "contractExecutionDate"] |});
    ("invoice",
     {| title := "Invoices";
        description := "Invoice processing and payment tracking";
        FormComponent := InvoiceForm;
        displayFields := ["vendor"; "amountRequested"; "invoiceDate"] |});
    ("compliance",
     {| title := "Compliance";
        description := "Compliance tracking and closeout";
        FormComponent := ComplianceForm;
        displayFields := ["name"; "dateCompleted"; "deliverablesCompleted"] |}) ].

(** [obj[key]] on an object literal: the property of that name, if any. *)
Fixpoint own_property {A : Type} (key : string) (obj : list (string * A)) : option A :=
  match obj with
  | [] => None
  | (k, v) :: rest => if String.eqb k key then Some v else own_property key rest
  end.

(** [Object.keys(obj)] *)
Definition Object_keys {A : Type} (obj : list (string * A)) : list string :=
  map fst obj.

(** The [value] of the [TabsTrigger]s, in the order they are written. *)
Definition TabsTrigger_values : list string :=
  [ "funding_opportunity"; "application"; "budget"; "budget_code"; "grant";
    "subgrantee_award"; "contract"; "invoice"; "compliance" ].

(** The message of the [TypeError] thrown on reading a property of
    [undefined]. *)
Definition TypeError_undefined (key : string) : string :=
  "Cannot read properties of undefined (reading '" +:+ key +:+ "')".

(** [sectionConfig[section].key], which throws when the lookup gives
    [undefined]. *)
Definition sectionConfig_get {A : Type} (section : SectionType) (key : string)
    (proj : SectionConfig → A) : result A :=
  match own_property (section_name section) sectionConfig with
  | Some config => Ok (proj config)
  | None => Throw (TypeError_undefined key)
  end.

(** [s.slice(0, -1)], on strings of one-unit characters. *)
Definition slice_0_minus1 (s : string) : string :=
  String.substring 0 (String.length s - 1) s.

(** [const config = sectionConfig[activeSection]], read first for
    [config.FormComponent]. *)
Definition App_config (st : AppState) : result SectionConfig :=
  sectionConfig_get (activeSection st) "FormComponent" (λ config, config).

(** The text of [DialogTitle]:
    [{editingRecord ? 'Edit' : 'Create New'} {config.title.slice(0, -1)}] *)
Definition DialogTitle_text (st : AppState) : result string :=
  config ← App_config st;
  Ok ((match editingRecord st with Some _ => "Edit" | None => "Create New" end)
        +:+ " " +:+ slice_0_minus1 (title config)).

(** What the [CardContent] of a section holds.  A table is its head and
    its rows, a row being its key and the children of its cells; the
    Actions column, the same in every row, is left out. *)
Inductive CardView : Type :=
| LoadingView                                  (* Loading... *)
| NoRecordsView                                (* No records found. ... *)
| TableView (head : list string) (rows : list (jsval * list json)).

(** [records.length === 0] on whatever [records] holds. *)
Definition length_is_0 (v : json) : result bool :=
  match v with
  | JNull => Throw (TypeError_null "length")
  | JArr items => Ok match items with [] => true | _ :: _ => false end
  | JStr s => Ok (String.eqb s "")
  | JObj members =>
      Ok match member "length" members with
         | Some (JNum n) => (n =? 0)%Z
         | _ => false
         end
  | _ => Ok false
  end.

(** [records.map(f)]: only an array has [map]. *)
Definition records_map {B : Type} (f : json → result B) (v : json) : result (list B) :=
  match v with
  | JArr items => mapM f items
  | JNull => Throw (TypeError_null "map")
  | _ => Throw "records.map is not a function"
  end.

(** One [TableRow]: for each display field the child
    [{record[field] || '-'}] of its [TableCell], and its [key={record.id}].
    The children are evaluated before the key.  No display field names an
    inherited property, so [get_prop] reads them. *)
Definition TableRow_of (displayed : list string) (record : json) : result (jsval * list json) :=
  cells ← mapM (λ field, v ← get_prop record field; Ok (js_or v (JStr "-"))) displayed;
  key ← get_prop record "id";
  Ok (key, cells).

(** The element tree [App] builds under [CardContent] in the panel of
    [section]: [loading ? ... : records.length === 0 ? ... : <Table>...].
    [Throw] is an exception of [App]'s own code.  What React then does
    with the tree, which it refuses when a child is an object, is not
    part of it. *)
Definition CardContent (section : SectionType) (st : AppState) : result CardView :=
  if loading st then Ok LoadingView
  else
    empty ← length_is_0 (records st);
    if (empty : bool) then Ok NoRecordsView
    else
      head ← sectionConfig_get section "displayFields" displayFields;
      rows ← records_map (TableRow_of head) (records st);
      Ok (TableView head rows).

(** ** Shapes of events and of calls in flight *)

(** The request a continuation waits on is the one its handler builds. *)
Definition request_matches (info : Info) (req : Request) (k : Cont) : Prop :=
  match k with
  | K_loadRecords section =>
      req = {| method := GET;
               url := collection_url info section;
               headers := [Authorization info];
               reqBody := None |}
  | K_handleSave isEditing section =>
      ∃ data,
        if isEditing
        then ∃ record,
               req = {| method := PUT;
                        url := record_url info section (id record);
                        headers := [("Content-Type", "application/json"); Authorization info];
                        reqBody := Some (JsonBody data) |}
        else req = {| method := POST;
                      url := collection_url info section;
                      headers := [("Content-Type", "application/json"); Authorization info];
                      reqBody := Some (JsonBody data) |}
  | K_handleDelete section =>
      ∃ i, req = {| method := DELETE;
                    url := record_url info section i;
                    headers := [Authorization info];
                    reqBody := None |}
  end.

Definition is_list_call (p : Request * Cont) : bool :=
  match p.2 with
  | K_loadRecords _ => true
  | _ => false
  end.

Definition is_save_call (p : Request * Cont) : bool :=
  match p.2 with
  | K_handleSave _ _ => true
  | _ => false
  end.

Definition is_settle (ev : Event) : bool :=
  match ev with
  | Settle _ _ => true
  | _ => false
  end.

(** Events that leave the remembered record alone whatever the state. *)
Definition keeps_target (ev : Event) : bool :=
  match ev with
  | AddNew | EditClick _ | FormCancel | Settle _ _ => false
  | _ => true
  end.

(** ** Sample data *)

Definition demo : Info := {| projectId := "demo"; publicAnonKey := "anon" |}.

Definition r1 : DataRecord := {| id := "r1"; fields := [("vendor", JStr "Acme")] |}.

Definition a1 : json := JObj [("id", JStr "a1")].
Definition b1 : json := JObj [("id", JStr "b1")].

Definition respond (st : nat) (v : json) : FetchOutcome :=
  Resolved {| status := st; body := BodyJson v |}.

(** * Properties *)

(** ** Calls in flight *)

Lemma fetch_lookup_new req k w :
  inflight (fetch req k w) !! fresh (dom (inflight w)) = Some (req, k).
Proof. apply lookup_insert_eq. Qed.

Lemma fresh_lookup_None (m : gmap nat (Request * Cont)) :
  m !! fresh (dom m) = None.
Proof. apply not_elem_of_dom, is_fresh. Qed.

Lemma fetch_lookup_old req k w h p :
  inflight w !! h = Some p → inflight (fetch req k w) !! h = Some p.
Proof.
  intros Hh. unfold fetch; simpl.
  rewrite lookup_insert_ne; [done|].
  intros <-. rewrite fresh_lookup_None in Hh. discriminate.
Qed.

Lemma loadRecords_lookup_new info section w :
  inflight (loadRecords info section w) !! fresh (dom (inflight w)) =
  Some (loadRecords_request info section, K_loadRecords section).
Proof. exact (fetch_lookup_new _ _ (setLoading true w)). Qed.

Lemma loadRecords_lookup_old info section w h p :
  inflight w !! h = Some p → inflight (loadRecords info section w) !! h = Some p.
Proof. exact (fetch_lookup_old _ _ (setLoading true w) h p). Qed.

Lemma resume_lookup_old info k out w h p :
  inflight w !! h = Some p → inflight (resume info k out w) !! h = Some p.
Proof.
  intros Hh. destruct k as [s|e s|s]; simpl.
  - unfold loadRecords_resume. by destruct (loadRecords_try out).
  - unfold handleSave_resume. destruct (handleSave_try out); [|done].
    by apply fetch_lookup_old.
  - unfold handleDelete_resume. destruct (handleDelete_try out); [|done].
    by apply fetch_lookup_old.
Qed.



(** ** The edit session along a trace *)

Lemma resume_editingRecord_None info k out w :
  editingRecord (app w) = None → editingRecord (app (resume info k out w)) = None.
Proof.
  intros Hw. destruct k as [s|e s|s]; simpl.
  - unfold loadRecords_resume. by destruct (loadRecords_try out).
  - unfold handleSave_resume. by destruct (handleSave_try out).
  - unfold handleDelete_resume. by destruct (handleDelete_try out).
Qed.

Lemma step_editingRecord_None info w ev :
  is_edit_click ev = false →
  editingRecord (app w) = None → editingRecord (app (step info w ev)) = None.
Proof.
  intros Hev Hw. destruct ev as [| |v| |r|i c|o| |d|h out]; simpl; try done.
  - unfold onValueChange. by case_decide.
  - unfold handleDelete. by destruct c.
  - destruct (inflight w !! h) as [[req k]|]; [|done].
    by apply resume_editingRecord_None.
Qed.

Lemma run_editingRecord_None info evs : ∀ w,
  forallb (λ ev, negb (is_edit_click ev)) evs = true →
  editingRecord (app w) = None → editingRecord (app (run info w evs)) = None.
Proof.
  induction evs as [|ev evs IH]; intros w Hevs Hw; simpl; [done|].
  simpl in Hevs. apply andb_prop in Hevs as [Hev Hevs].
  apply IH; [done|]. apply step_editingRecord_None; [|done].
  by apply negb_true_iff.
Qed.

Lemma resume_target_only_when_open info k out w :
  target_only_when_open (app w) → target_only_when_open (app (resume info k out w)).
Proof.
  unfold target_only_when_open. intros Hw. destruct k as [s|e s|s]; simpl.
  - unfold loadRecords_resume. by destruct (loadRecords_try out).
  - unfold handleSave_resume. destruct (handleSave_try out); simpl; [|done].
    by intros ?%is_Some_None.
  - unfold handleDelete_resume. by destruct (handleDelete_try out).
Qed.

Lemma step_target_only_when_open info w ev :
  is_dialog_close ev = false →
  target_only_when_open (app w) → target_only_when_open (app (step info w ev)).
Proof.
  unfold target_only_when_open.
  intros Hev Hw. destruct ev as [| |v| |r|i c|o| |d|h out]; simpl; try done.
  - unfold onValueChange. by case_decide.
  - unfold handleDelete. by destruct c.
  - simpl in Hev. by destruct o.
  - destruct (inflight w !! h) as [[req k]|]; [|done].
    by apply resume_target_only_when_open.
Qed.

Lemma run_target_only_when_open info evs : ∀ w,
  forallb (λ ev, negb (is_dialog_close ev)) evs = true →
  target_only_when_open (app w) → target_only_when_open (app (run info w evs)).
Proof.
  induction evs as [|ev evs IH]; intros w Hevs Hw; simpl; [done|].
  simpl in Hevs. apply andb_prop in Hevs as [Hev Hevs].
  apply IH; [done|]. apply step_target_only_when_open; [|done].
  by apply negb_true_iff.
Qed.

Lemma step_settle info w h out req k :
  inflight w !! h = Some (req, k) →
  step info w (Settle h out) = resume info k out (settle h w).
Proof. intros Hh. simpl. by rewrite Hh. Qed.

Lemma handleSave_try_ok r : ok r = true → handleSave_try (Resolved r) = Ok tt.
Proof. intros Hr. simpl. by rewrite Hr. Qed.

(** ** Reloading *)

(** C1, as the code has it: a list call carries no mark of the section it
    was issued for, and its result is applied whenever it arrives.  When
    reloads are issued for A and then for B and the call for A settles
    after the call for B, [records] ends up holding what the call for A
    left (its records, or the empty list if it failed). *)
Theorem C1_last_settled_call_wins info w A B outA outB :
  let hA := fresh (dom (inflight w)) in
  let w1 := loadRecords info A w in
  let hB := fresh (dom (inflight w1)) in
  let w2 := loadRecords info B w1 in
  let w' := run info w2 [Settle hB outB; Settle hA outA] in
  records (app w') = records_after outA ∧ loading (app w') = false.
Proof.
  intros hA w1 hB w2 w'.
  assert (HA : inflight w1 !! hA = Some (loadRecords_request info A, K_loadRecords A))
    by apply loadRecords_lookup_new.
  assert (HB : inflight w2 !! hB = Some (loadRecords_request info B, K_loadRecords B))
    by apply loadRecords_lookup_new.
  assert (Hne : hA ≠ hB).
  { intros Heq. pose proof (fresh_lookup_None (inflight w1)) as Hf.
    fold hB in Hf. rewrite <- Heq, HA in Hf. discriminate. }
  assert (HA2 : inflight w2 !! hA = Some (loadRecords_request info A, K_loadRecords A))
    by (by apply loadRecords_lookup_old).
  subst w'. unfold run. cbn [foldl].
  rewrite (step_settle _ _ _ _ _ _ HB).
  erewrite step_settle; last first.
  { apply resume_lookup_old. simpl. rewrite lookup_delete_ne; [exact HA2|done]. }
  cbn [resume]. unfold loadRecords_resume at 1, records_after.
  by destruct (loadRecords_try outA).
Qed.

(** Against C1 as the specification words it: the tabs go to Applications
    and then to Budget, the Budget list arrives first and the Applications
    list second; the active section is Budget and [records] holds the
    Applications list. *)
Lemma C1_stale_response_shown :
  let w := run demo (mount demo)
             [GetStarted; TabChange application; TabChange budget;
              Settle 2 (respond 200 (JObj [("records", JArr [b1])]));
              Settle 1 (respond 200 (JObj [("records", JArr [a1])]))] in
  activeSection (app w) = budget ∧
  records (app w) = JArr [a1] ∧
  records (app w) ≠ JArr [b1].
Proof. vm_compute. split; [|split]; [reflexivity..|discriminate]. Qed.

(** C9, as the code has it: there is no [lastError] cell.  A reload that
    fails leaves [records] empty and [loading] false, touches no other
    cell, issues no call, and is reported: one error toast and one console
    line carry the failure message. *)
Theorem C9_failed_reload info w h req section out m :
  inflight w !! h = Some (req, K_loadRecords section) →
  loadRecords_try out = Throw m →
  let w' := step info w (Settle h out) in
  records (app w') = JArr [] ∧
  loading (app w') = false ∧
  toasts w' = toasts w ++ [ToastError ("Failed to load records: " +:+ m)] ∧
  console w' = console w ++ [("Error loading " +:+ section_name section +:+ " records:", m)] ∧
  inflight w' = delete h (inflight w) ∧
  showLanding (app w') = showLanding (app w) ∧
  activeSection (app w') = activeSection (app w) ∧
  dialogOpen (app w') = dialogOpen (app w) ∧
  editingRecord (app w') = editingRecord (app w).
Proof.
  intros Hh Hm w'. subst w'. rewrite (step_settle _ _ _ _ _ _ Hh).
  cbn [resume]. unfold loadRecords_resume. rewrite Hm. by repeat split.
Qed.

Lemma C9_failed_reload_witness :
  let w' := step demo (mount demo) (Settle 0 (Rejected "Failed to fetch")) in
  records (app w') = JArr [] ∧
  loading (app w') = false ∧
  toasts w' = toasts (mount demo) ++ [ToastError ("Failed to load records: " +:+ "Failed to fetch")] ∧
  console w' = console (mount demo) ++ [("Error loading " +:+ section_name funding_opportunity +:+ " records:", "Failed to fetch")] ∧
  inflight w' = delete 0 (inflight (mount demo)) ∧
  showLanding (app w') = showLanding (app (mount demo)) ∧
  activeSection (app w') = activeSection (app (mount demo)) ∧
  dialogOpen (app w') = dialogOpen (app (mount demo)) ∧
  editingRecord (app w') = editingRecord (app (mount demo)).
Proof.
  apply (C9_failed_reload demo (mount demo) 0 (loadRecords_request demo funding_opportunity)
           funding_opportunity (Rejected "Failed to fetch") "Failed to fetch");
    reflexivity.
Defined.

(** Against C9 as the specification words it: the first list call is
    rejected, and the user is told through the feedback channel. *)
Lemma C9_failed_reload_is_notified :
  let w' := step demo (mount demo) (Settle 0 (Rejected "Failed to fetch")) in
  toasts (mount demo) = [] ∧
  toasts w' = [ToastError "Failed to load records: Failed to fetch"] ∧
  toasts w' ≠ toasts (mount demo).
Proof. vm_compute. split; [|split]; [reflexivity..|discriminate]. Qed.

(** C8, as the code has it: the body of a 2xx list response is not checked
    against any shape.  Whatever parses to a value other than [null] is a
    success: [records] becomes the body's [records] member if that is
    truthy and the empty list otherwise.  The call fails exactly when the
    body is not JSON or is [null], with the message of that exception. *)
Theorem C8_list_body_unchecked r :
  ok r = true →
  match body r with
  | BodyInvalid m => loadRecords_try (Resolved r) = Throw m
  | BodyJson JNull => loadRecords_try (Resolved r) = Throw (TypeError_null "records")
  | BodyJson (JObj members) =>
      loadRecords_try (Resolved r) = Ok (js_or (member "records" members) (JArr []))
  | BodyJson _ => loadRecords_try (Resolved r) = Ok (JArr [])
  end.
Proof.
  intros Hr. unfold loadRecords_try, response_json. rewrite Hr. simpl.
  destruct (body r) as [[]|]; reflexivity.
Qed.

Lemma C8_list_body_unchecked_witness :
  loadRecords_try (respond 200 (JObj [("records", JArr [a1])])) =
  Ok (js_or (member "records" [("records", JArr [a1])]) (JArr [])).
Proof.
  apply (C8_list_body_unchecked {| status := 200; body := BodyJson (JObj [("records", JArr [a1])]) |}).
  reflexivity.
Defined.

(** Against C8 as the specification words it: a 200 whose body has no
    [records] array is a success with no records, and one whose [records] is
    a string is a success with that string. *)
Lemma C8_malformed_body_succeeds :
  loadRecords_try (respond 200 (JObj [])) = Ok (JArr []) ∧
  loadRecords_try (respond 200 (JObj [("records", JStr "abc")])) = Ok (JStr "abc") ∧
  toasts (step demo (mount demo) (Settle 0 (respond 200 (JObj [])))) = [].
Proof. vm_compute. by repeat split. Qed.

(** ** The edit session *)

(** C2, as the code has it: the tab handler sets the active section and
    nothing else.  Changing the section leaves the dialog and the
    remembered record as they were, so an open session stays open across
    the switch, and the reload of the new section is issued. *)
Theorem C2_tab_change_keeps_session info w v :
  let w' := step info w (TabChange v) in
  activeSection (app w') = v ∧
  dialogOpen (app w') = dialogOpen (app w) ∧
  editingRecord (app w') = editingRecord (app w) ∧
  mode (app w') = mode (app w) ∧
  inflight w' =
    if decide (v = activeSection (app w)) then inflight w
    else <[fresh (dom (inflight w)) := (loadRecords_request info v, K_loadRecords v)]>
           (inflight w).
Proof.
  simpl. unfold onValueChange. case_decide; by repeat split.
Qed.

(** Against C2 as the specification words it: a record is opened for editing
    and the tab is changed; the session is still Editing, for the same
    record, while the list of the new section is being loaded. *)
Lemma C2_session_survives_tab_change :
  let w := run demo (mount demo) [GetStarted; EditClick r1; TabChange invoice] in
  activeSection (app w) = invoice ∧
  loading (app w) = true ∧
  mode (app w) = Editing ∧
  target (app w) = Some r1 ∧
  mode (app w) ≠ Closed.
Proof. vm_compute. by repeat split. Qed.

(** Along every trace from the first render in which the dialog is not
    dismissed through its own [onOpenChange], a record is remembered if
    and only if the session is Editing. *)
Lemma target_iff_editing_unless_dismissed info evs :
  forallb (λ ev, negb (is_dialog_close ev)) evs = true →
  let st := app (run info (mount info) evs) in
  is_Some (target st) ↔ mode st = Editing.
Proof.
  intros Hevs st.
  assert (Hinv : target_only_when_open st).
  { apply run_target_only_when_open; [done|]. by intros ?%is_Some_None. }
  unfold target_only_when_open in Hinv. unfold target, mode in *.
  destruct (editingRecord st) as [r|], (dialogOpen st); split;
    try done; try (by intros ?%is_Some_None).
  intros Hs. by specialize (Hinv Hs).
Qed.

(** C3: a record is present if and only if the session is Editing.  The
    form's cancel keeps that, as the success of a save does, by clearing
    the record when it closes the dialog.  The dialog's own close does
    not: a record is opened for editing and the dialog is dismissed
    through [onOpenChange]; the session is Closed and the record is still
    remembered, where cancel from the same state leaves none. *)
Theorem C3_closed_with_target :
  let w := run demo (mount demo)
             [GetStarted;
              Settle 0 (respond 200 (JObj [("records",
                          JArr [JObj [("id", JStr "r1"); ("vendor", JStr "Acme")]])]));
              EditClick r1] in
  let dismissed := app (step demo w (DialogOpenChange false)) in
  let cancelled := app (step demo w FormCancel) in
  mode (app w) = Editing ∧ target (app w) = Some r1 ∧
  mode dismissed = Closed ∧ target dismissed = Some r1 ∧
  ¬ (is_Some (target dismissed) ↔ mode dismissed = Editing) ∧
  mode cancelled = Closed ∧ target cancelled = None.
Proof.
  vm_compute. repeat split; try reflexivity.
  intros [H _]. specialize (H (ex_intro _ r1 eq_refl)). discriminate.
Qed.

(** C10: Add New forgets the remembered record before it opens the dialog.
    From any state, whatever it remembers, and whatever happens after Add
    New short of an edit button being pressed, a save issues a POST to the
    collection path of the active section. *)
Theorem C10_create_after_stale_edit info w evs data :
  forallb (λ ev, negb (is_edit_click ev)) evs = true →
  let w1 := run info (step info w AddNew) evs in
  let w2 := step info w1 (FormSave data) in
  inflight w2 =
    <[fresh (dom (inflight w1)) :=
        ({| method := POST;
            url := collection_url info (activeSection (app w1));
            headers := [("Content-Type", "application/json"); Authorization info];
            reqBody := Some (JsonBody data) |},
         K_handleSave false (activeSection (app w1)))]> (inflight w1).
Proof.
  intros Hevs w1 w2.
  assert (Hnone : editingRecord (app w1) = None)
    by (by apply run_editingRecord_None).
  subst w2. simpl. unfold handleSave, handleSave_request, fetch. simpl.
  by rewrite Hnone.
Qed.

Lemma C10_create_after_stale_edit_witness :
  let w := run demo (mount demo) [GetStarted; EditClick r1; DialogOpenChange false] in
  let w1 := run demo (step demo w AddNew) [TabChange invoice] in
  let w2 := step demo w1 (FormSave (JObj [("vendor", JStr "Acme")])) in
  inflight w2 =
    <[fresh (dom (inflight w1)) :=
        ({| method := POST;
            url := collection_url demo (activeSection (app w1));
            headers := [("Content-Type", "application/json"); Authorization demo];
            reqBody := Some (JsonBody (JObj [("vendor", JStr "Acme")])) |},
         K_handleSave false (activeSection (app w1)))]> (inflight w1).
Proof.
  apply (C10_create_after_stale_edit demo
           (run demo (mount demo) [GetStarted; EditClick r1; DialogOpenChange false])
           [TabChange invoice] (JObj [("vendor", JStr "Acme")])).
  reflexivity.
Defined.

(** ** Saving *)







(** ** Errors *)




(** ** Deleting *)

(** C7: a delete that is not confirmed changes nothing, no cell, no call in
    flight, no toast, no console line; the DELETE call is issued in the
    confirmed case only. *)
Theorem C7_delete_needs_confirmation info w i confirmed :
  step info w (DeleteClick i false) = w ∧
  inflight (step info w (DeleteClick i confirmed)) =
    if confirmed
    then <[fresh (dom (inflight w)) :=
             (handleDelete_request info (activeSection (app w)) i,
              K_handleDelete (activeSection (app w)))]> (inflight w)
    else inflight w.
Proof. split; [reflexivity|]. by destruct confirmed. Qed.

(** * Further properties of the handlers *)

(** ** Invariants along traces *)

Lemma run_invariant info (P : World → Prop) :
  (∀ w ev, P w → P (step info w ev)) →
  ∀ evs w, P w → P (run info w evs).
Proof.
  intros Hstep evs. induction evs as [|ev evs IH]; intros w Hw; simpl; [done|].
  apply IH, Hstep, Hw.
Qed.

Lemma handleDelete_try_ok r : ok r = true → handleDelete_try (Resolved r) = Ok tt.
Proof. intros Hr. simpl. by rewrite Hr. Qed.

Lemma throw_error_of_throws {A} r label : ∃ m, throw_error_of (A:=A) r label = Throw m.
Proof.
  unfold throw_error_of.
  destruct (response_json r) as [v|m]; simpl; [|by eexists].
  destruct (get_prop v "error"); simpl; by eexists.
Qed.

(** X1: a delete that settles with a 2xx response shows one success toast
    and issues one list call, for the section that was active when the
    delete was made; [records], the dialog and the active section are as
    they were, and [loading] is on. *)
Theorem X1_delete_success info w h req section r :
  inflight w !! h = Some (req, K_handleDelete section) →
  ok r = true →
  let w' := step info w (Settle h (Resolved r)) in
  toasts w' = toasts w ++ [ToastSuccess "Record deleted successfully"] ∧
  console w' = console w ∧
  inflight w' =
    <[fresh (dom (delete h (inflight w))) :=
        (loadRecords_request info section, K_loadRecords section)]> (delete h (inflight w)) ∧
  loading (app w') = true ∧
  records (app w') = records (app w) ∧
  activeSection (app w') = activeSection (app w) ∧
  dialogOpen (app w') = dialogOpen (app w) ∧
  editingRecord (app w') = editingRecord (app w) ∧
  showLanding (app w') = showLanding (app w).
Proof.
  intros Hh Hr w'. subst w'. rewrite (step_settle _ _ _ _ _ _ Hh).
  cbn [resume]. unfold handleDelete_resume. rewrite (handleDelete_try_ok _ Hr).
  by repeat split.
Qed.

Lemma X1_delete_success_witness :
  let w := run demo (mount demo) [GetStarted; TabChange invoice; DeleteClick "r1" true] in
  let r := {| status := 200; body := BodyInvalid "Unexpected end of JSON input" |} in
  let w' := step demo w (Settle 2 (Resolved r)) in
  toasts w' = toasts w ++ [ToastSuccess "Record deleted successfully"] ∧
  console w' = console w ∧
  inflight w' =
    <[fresh (dom (delete 2 (inflight w))) :=
        (loadRecords_request demo invoice, K_loadRecords invoice)]> (delete 2 (inflight w)) ∧
  loading (app w') = true ∧
  records (app w') = records (app w) ∧
  activeSection (app w') = activeSection (app w) ∧
  dialogOpen (app w') = dialogOpen (app w) ∧
  editingRecord (app w') = editingRecord (app w) ∧
  showLanding (app w') = showLanding (app w).
Proof.
  apply (X1_delete_success demo
           (run demo (mount demo) [GetStarted; TabChange invoice; DeleteClick "r1" true])
           2 (handleDelete_request demo invoice "r1") invoice
           {| status := 200; body := BodyInvalid "Unexpected end of JSON input" |});
    reflexivity.
Defined.

(** X2: a delete that fails (the call is rejected, or the response is not
    ok) changes no cell of the component, so the list stays as it is;
    exactly one error toast is added, and no call is issued. *)
Theorem X2_delete_failure info w h req section out :
  inflight w !! h = Some (req, K_handleDelete section) →
  failed out = true →
  let w' := step info w (Settle h out) in
  ∃ m, handleDelete_try out = Throw m ∧
       app w' = app w ∧
       toasts w' = toasts w ++ [ToastError ("Failed to delete record: " +:+ m)] ∧
       console w' = console w ++ [("Error deleting " +:+ section_name section +:+ " record:", m)] ∧
       inflight w' = delete h (inflight w).
Proof.
  intros Hh Hout w'. subst w'. rewrite (step_settle _ _ _ _ _ _ Hh).
  cbn [resume]. unfold handleDelete_resume.
  assert (Hm : ∃ m, handleDelete_try out = Throw m).
  { destruct out as [m|r]; simpl in *; [by eexists|].
    rewrite Hout. apply throw_error_of_throws. }
  destruct Hm as [m Hm]. exists m. rewrite Hm. by repeat split.
Qed.

Lemma X2_delete_failure_witness :
  let w := run demo (mount demo) [GetStarted; TabChange invoice; DeleteClick "r1" true] in
  let out := Rejected "Failed to fetch" in
  let w' := step demo w (Settle 2 out) in
  ∃ m, handleDelete_try out = Throw m ∧
       app w' = app w ∧
       toasts w' = toasts w ++ [ToastError ("Failed to delete record: " +:+ m)] ∧
       console w' = console w ++ [("Error deleting " +:+ section_name invoice +:+ " record:", m)] ∧
       inflight w' = delete 2 (inflight w).
Proof.
  apply (X2_delete_failure demo
           (run demo (mount demo) [GetStarted; TabChange invoice; DeleteClick "r1" true])
           2 (handleDelete_request demo invoice "r1") invoice (Rejected "Failed to fetch"));
    reflexivity.
Defined.

(** X3: a list call that succeeds puts its value in [records] and turns
    [loading] off, and does nothing else: no toast, no console line, no
    call, no other cell.  An empty list is such a success, told apart from
    a failed load by the absence of a toast. *)
Theorem X3_list_success info w h req section out v :
  inflight w !! h = Some (req, K_loadRecords section) →
  loadRecords_try out = Ok v →
  let w' := step info w (Settle h out) in
  records (app w') = v ∧
  loading (app w') = false ∧
  toasts w' = toasts w ∧
  console w' = console w ∧
  inflight w' = delete h (inflight w) ∧
  activeSection (app w') = activeSection (app w) ∧
  dialogOpen (app w') = dialogOpen (app w) ∧
  editingRecord (app w') = editingRecord (app w) ∧
  showLanding (app w') = showLanding (app w).
Proof.
  intros Hh Hv w'. subst w'. rewrite (step_settle _ _ _ _ _ _ Hh).
  cbn [resume]. unfold loadRecords_resume. rewrite Hv. by repeat split.
Qed.

Lemma X3_list_success_witness :
  let w := mount demo in
  let out := respond 200 (JObj [("records", JArr [])]) in
  let w' := step demo w (Settle 0 out) in
  records (app w') = JArr [] ∧
  loading (app w') = false ∧
  toasts w' = toasts w ∧
  console w' = console w ∧
  inflight w' = delete 0 (inflight w) ∧
  activeSection (app w') = activeSection (app w) ∧
  dialogOpen (app w') = dialogOpen (app w) ∧
  editingRecord (app w') = editingRecord (app w) ∧
  showLanding (app w') = showLanding (app w).
Proof.
  apply (X3_list_success demo (mount demo) 0
           (loadRecords_request demo funding_opportunity) funding_opportunity
           (respond 200 (JObj [("records", JArr [])])) (JArr []));
    reflexivity.
Defined.

(** X4: whenever [loading] is on, a list call is in flight, so the
    Loading... state is never left behind with nothing to end it. *)
Theorem X4_loading_has_list_call info evs :
  let w := run info (mount info) evs in
  loading (app w) = true →
  ∃ h p, inflight w !! h = Some p ∧ is_list_call p = true.
Proof.
  simpl.
  apply (run_invariant info
           (λ w, loading (app w) = true →
                 ∃ h p, inflight w !! h = Some p ∧ is_list_call p = true)).
  - intros w ev Hw.
    assert (Hload : ∀ s w0, ∃ h p,
              inflight (loadRecords info s w0) !! h = Some p ∧ is_list_call p = true).
    { intros s w0. eexists _, _. split; [apply loadRecords_lookup_new|done]. }
    assert (Hfetch : ∀ req k, loading (app (fetch req k w)) = true →
              ∃ h p, inflight (fetch req k w) !! h = Some p ∧ is_list_call p = true).
    { intros req k Hl. destruct (Hw Hl) as (h & p & Hh & Hp).
      exists h, p. split; [by apply fetch_lookup_old|done]. }
    destruct ev as [| |v| |r|i c|o| |d|h out]; simpl; try done.
    + unfold onValueChange. case_decide; [done|]. intros _. apply Hload.
    + unfold handleDelete. destruct c; simpl; [|done]. apply Hfetch.
    + apply Hfetch.
    + destruct (inflight w !! h) as [[req k]|] eqn:Hh; [|done].
      destruct k as [s|e s|s]; simpl.
      * unfold loadRecords_resume. by destruct (loadRecords_try out).
      * unfold handleSave_resume. destruct (handleSave_try out); [intros _; apply Hload|].
        simpl. intros Hl. destruct (Hw Hl) as (h' & p & Hh' & Hp).
        exists h', p. split; [|done]. rewrite lookup_delete_ne; [done|].
        intros ->. rewrite Hh in Hh'. by simplify_eq.
      * unfold handleDelete_resume. destruct (handleDelete_try out); [intros _; apply Hload|].
        simpl. intros Hl. destruct (Hw Hl) as (h' & p & Hh' & Hp).
        exists h', p. split; [|done]. rewrite lookup_delete_ne; [done|].
        intros ->. rewrite Hh in Hh'. by simplify_eq.
  - intros _. eexists _, _. split; [apply loadRecords_lookup_new|done].
Qed.

Lemma X4_loading_has_list_call_witness :
  let w := run demo (mount demo) [GetStarted; Settle 0 (Rejected "Failed to fetch"); TabChange grant] in
  ∃ h p, inflight w !! h = Some p ∧ is_list_call p = true.
Proof.
  apply (X4_loading_has_list_call demo
           [GetStarted; Settle 0 (Rejected "Failed to fetch"); TabChange grant]).
  reflexivity.
Defined.

Lemma handleSave_request_matches info st data :
  request_matches info (handleSave_request info st data)
    (K_handleSave (bool_decide (is_Some (editingRecord st))) (activeSection st)).
Proof.
  unfold handleSave_request. simpl. exists data.
  destruct (editingRecord st) as [r|]; simpl; [by exists r|done].
Qed.

Lemma request_matches_Authorization info req k :
  request_matches info req k → Authorization info ∈ headers req.
Proof.
  destruct k as [s|[] s|s]; simpl.
  - intros ->. set_solver.
  - intros (data & r & ->). set_solver.
  - intros (data & ->). set_solver.
  - intros (i & ->). set_solver.
Qed.

(** X5: every call in flight is the request its continuation's handler
    builds: a list continuation waits on the GET of its section's
    collection, a save continuation on a POST to the collection or a PUT
    to a record path of the section it closed over, a delete continuation
    on a DELETE of a record path of its section; and every call carries
    the Authorization header. *)
Theorem X5_calls_in_flight_well_formed info evs h req k :
  inflight (run info (mount info) evs) !! h = Some (req, k) →
  request_matches info req k ∧ Authorization info ∈ headers req.
Proof.
  intros Hh.
  assert (Hinv : ∀ h req k, inflight (run info (mount info) evs) !! h = Some (req, k) →
                            request_matches info req k).
  { clear. apply (run_invariant info
             (λ w, ∀ h req k, inflight w !! h = Some (req, k) → request_matches info req k)).
    - intros w ev Hw.
      assert (Hfetch : ∀ req0 k0 w0,
                (∀ h req k, inflight w0 !! h = Some (req, k) → request_matches info req k) →
                request_matches info req0 k0 →
                ∀ h req k, inflight (fetch req0 k0 w0) !! h = Some (req, k) →
                           request_matches info req k).
      { intros req0 k0 w0 Hw0 Hm h req k. unfold fetch; simpl.
        intros [[_ [= <- <-]]|[_ Hold]]%lookup_insert_Some; [done|by eapply Hw0]. }
      assert (Hsettle : ∀ h0 h req k, inflight (settle h0 w) !! h = Some (req, k) →
                                      request_matches info req k).
      { intros h0 h req k. simpl. intros [_ Hold]%lookup_delete_Some. by eapply Hw. }
      destruct ev as [| |v| |r|i c|o| |d|h0 out]; simpl; try done.
      + unfold onValueChange. case_decide; [done|]. by apply Hfetch.
      + unfold handleDelete. destruct c; simpl; [|done]. apply Hfetch; [done|].
        simpl. by eexists.
      + apply Hfetch; [done|]. apply handleSave_request_matches.
      + destruct (inflight w !! h0) as [[req0 k0]|] eqn:Hh0; [|done].
        destruct k0 as [s|e s|s]; simpl.
        * unfold loadRecords_resume. destruct (loadRecords_try out); apply Hsettle.
        * unfold handleSave_resume. destruct (handleSave_try out); [|apply Hsettle].
          apply Hfetch; [apply Hsettle|done].
        * unfold handleDelete_resume. destruct (handleDelete_try out); [|apply Hsettle].
          apply Hfetch; [apply Hsettle|done].
    - intros h req k. unfold mount, loadRecords, fetch; simpl.
      intros [[_ [= <- <-]]|[_ Hold]]%lookup_insert_Some; [done|].
      by rewrite lookup_empty in Hold. }
  split; [by eapply Hinv|]. eapply request_matches_Authorization, Hinv, Hh.
Qed.

Lemma X5_calls_in_flight_well_formed_witness :
  let req := {| method := DELETE;
                url := "https://demo.supabase.co/functions/v1/make-server-6c78dd6b/invoice/r1";
                headers := [("Authorization", "Bearer anon")];
                reqBody := None |} in
  request_matches demo req (K_handleDelete invoice) ∧
  Authorization demo ∈ headers req.
Proof.
  apply (X5_calls_in_flight_well_formed demo
           [GetStarted; TabChange invoice; DeleteClick "r1" true] 2).
  reflexivity.
Defined.

(** X6: nothing writes [records] but a list call that settles: an event
    after which [records] differs is the settling of a call issued by
    [loadRecords].  Saves and deletes never patch the list themselves. *)
Theorem X6_records_change_only_on_list_settle info w ev :
  records (app (step info w ev)) ≠ records (app w) →
  ∃ h out req section,
    ev = Settle h out ∧ inflight w !! h = Some (req, K_loadRecords section).
Proof.
  intros Hne. destruct ev as [| |v| |r|i c|o| |d|h out]; simpl in Hne; try done.
  - unfold onValueChange in Hne. by case_decide.
  - unfold handleDelete in Hne. by destruct c.
  - destruct (inflight w !! h) as [[req k]|] eqn:Hh; [|done].
    destruct k as [s|e s|s]; simpl in Hne.
    + by exists h, out, req, s.
    + unfold handleSave_resume in Hne. by destruct (handleSave_try out).
    + unfold handleDelete_resume in Hne. by destruct (handleDelete_try out).
Qed.

Lemma X6_records_change_only_on_list_settle_witness :
  ∃ h out req section,
    Settle 0 (respond 200 (JObj [("records", JArr [a1])])) = Settle h out ∧
    inflight (mount demo) !! h = Some (req, K_loadRecords section).
Proof.
  apply (X6_records_change_only_on_list_settle demo (mount demo)
           (Settle 0 (respond 200 (JObj [("records", JArr [a1])])))).
  vm_compute. discriminate.
Defined.

(** X7: an event adds at most one toast and at most one console line, and
    none at all unless it is the settling of a call: the user's own actions
    are never answered by a notification. *)
Theorem X7_toasts_only_on_settle info w ev :
  ∃ ts cs,
    toasts (step info w ev) = toasts w ++ ts ∧
    console (step info w ev) = console w ++ cs ∧
    (List.length cs ≤ List.length ts)%nat ∧
    (List.length ts ≤ if is_settle ev then 1 else 0)%nat.
Proof.
  assert (Hnil : ∀ w' : World, toasts w' = toasts w → console w' = console w →
            ∃ ts cs, toasts w' = toasts w ++ ts ∧ console w' = console w ++ cs ∧
                     (List.length cs ≤ List.length ts)%nat ∧ (List.length ts ≤ 0)%nat).
  { intros w' -> ->. exists [], []. by rewrite !app_nil_r. }
  destruct ev as [| |v| |r|i c|o| |d|h out]; simpl; try by apply Hnil.
  - apply Hnil; unfold onValueChange; by case_decide.
  - apply Hnil; unfold handleDelete; by destruct c.
  - destruct (inflight w !! h) as [[req k]|] eqn:Hh.
    + destruct k as [s|e s|s]; simpl.
      * unfold loadRecords_resume. destruct (loadRecords_try out); simpl.
        -- exists [], []. rewrite !app_nil_r. simpl. repeat split; lia.
        -- eexists [_], [_]. simpl. repeat split; lia.
      * unfold handleSave_resume. destruct (handleSave_try out); simpl.
        -- eexists [_], []. rewrite !app_nil_r. simpl. repeat split; lia.
        -- eexists [_], [_]. simpl. repeat split; lia.
      * unfold handleDelete_resume. destruct (handleDelete_try out); simpl.
        -- eexists [_], []. rewrite !app_nil_r. simpl. repeat split; lia.
        -- eexists [_], [_]. simpl. repeat split; lia.
    + exists [], []. rewrite !app_nil_r. simpl. repeat split; lia.
Qed.

(** X8: an open dialog is closed by three things only: the form's cancel,
    the dialog's own close, and a save that settles with a 2xx response.
    A tab change, a delete, a list call or a failed save never closes it. *)
Theorem X8_dialog_closes_only_by info w ev :
  dialogOpen (app w) = true →
  dialogOpen (app (step info w ev)) = false →
  ev = FormCancel ∨ ev = DialogOpenChange false ∨
  ∃ h r req isEditing section,
    ev = Settle h (Resolved r) ∧ ok r = true ∧
    inflight w !! h = Some (req, K_handleSave isEditing section).
Proof.
  intros Hopen Hclosed.
  destruct ev as [| |v| |r|i c|o| |d|h out]; simpl in Hclosed; try congruence.
  - unfold onValueChange in Hclosed. case_decide; simpl in Hclosed; congruence.
  - unfold handleDelete in Hclosed. destruct c; simpl in Hclosed; congruence.
  - right; left. by subst o.
  - by left.
  - destruct (inflight w !! h) as [[req k]|] eqn:Hh; [|congruence].
    destruct k as [s|e s|s]; simpl in Hclosed.
    + unfold loadRecords_resume in Hclosed.
      destruct (loadRecords_try out); simpl in Hclosed; congruence.
    + right; right. unfold handleSave_resume in Hclosed.
      destruct out as [m|r]; simpl in Hclosed; [congruence|].
      destruct (ok r) eqn:Hr; simpl in Hclosed.
      * by exists h, r, req, e, s.
      * destruct (throw_error_of_throws (A:=unit) r "Failed to save record") as [m Hm].
        rewrite Hm in Hclosed. simpl in Hclosed. congruence.
    + unfold handleDelete_resume in Hclosed.
      destruct (handleDelete_try out); simpl in Hclosed; congruence.
Qed.

Lemma X8_dialog_closes_only_by_witness :
  let w := run demo (mount demo) [GetStarted; AddNew; FormSave (JObj [])] in
  let ev := Settle 1 (respond 201 (JObj [("id", JStr "f1")])) in
  ev = FormCancel ∨ ev = DialogOpenChange false ∨
  ∃ h r req isEditing section,
    ev = Settle h (Resolved r) ∧ ok r = true ∧
    inflight w !! h = Some (req, K_handleSave isEditing section).
Proof.
  apply (X8_dialog_closes_only_by demo
           (run demo (mount demo) [GetStarted; AddNew; FormSave (JObj [])])
           (Settle 1 (respond 201 (JObj [("id", JStr "f1")]))));
    reflexivity.
Defined.

Lemma step_keeps_target info w ev :
  keeps_target ev = true →
  editingRecord (app (step info w ev)) = editingRecord (app w).
Proof.
  intros Hev. destruct ev as [| |v| |r|i c|o| |d|h out]; simpl; try done.
  - unfold onValueChange. by case_decide.
  - unfold handleDelete. by destruct c.
Qed.

Lemma run_keeps_target info evs : ∀ w,
  forallb keeps_target evs = true →
  editingRecord (app (run info w evs)) = editingRecord (app w).
Proof.
  induction evs as [|ev evs IH]; intros w Hevs; simpl; [done|].
  simpl in Hevs. apply andb_prop in Hevs as [Hev Hevs].
  rewrite IH; [|done]. by apply step_keeps_target.
Qed.

(** X9: after the edit button of a record, and whatever tab changes,
    deletes or dialog open-changes follow, a save issues a PUT to the
    record path made of the section active at the time of the save and
    the id of that record, also when the record was opened under another
    section. *)
Theorem X9_update_goes_to_active_section info w record evs data :
  forallb keeps_target evs = true →
  let w1 := run info (step info w (EditClick record)) evs in
  let w2 := step info w1 (FormSave data) in
  inflight w2 =
    <[fresh (dom (inflight w1)) :=
        ({| method := PUT;
            url := record_url info (activeSection (app w1)) (id record);
            headers := [("Content-Type", "application/json"); Authorization info];
            reqBody := Some (JsonBody data) |},
         K_handleSave true (activeSection (app w1)))]> (inflight w1).
Proof.
  intros Hevs w1 w2.
  assert (Hsome : editingRecord (app w1) = Some record)
    by (subst w1; by rewrite run_keeps_target).
  subst w2. simpl. unfold handleSave, handleSave_request, fetch. simpl.
  by rewrite Hsome.
Qed.

Lemma X9_update_goes_to_active_section_witness :
  let w1 := run demo (step demo (mount demo) (EditClick r1)) [TabChange contract] in
  let w2 := step demo w1 (FormSave (JObj [])) in
  inflight w2 =
    <[fresh (dom (inflight w1)) :=
        ({| method := PUT;
            url := record_url demo (activeSection (app w1)) (id r1);
            headers := [("Content-Type", "application/json"); Authorization demo];
            reqBody := Some (JsonBody (JObj [])) |},
         K_handleSave true (activeSection (app w1)))]> (inflight w1).
Proof.
  apply (X9_update_goes_to_active_section demo (mount demo) r1 [TabChange contract] (JObj [])).
  reflexivity.
Defined.

(** X10: a create from start to end.  Add New, a save, a 2xx answer to
    it and then a successful answer to the list call it triggers: the
    dialog is closed with nothing remembered, [records] holds what the
    list call gave, [loading] is off, one success toast was added, the
    active section is the same and the calls in flight are those there
    were before. *)
Theorem X10_create_then_reload info w data r out v :
  ok r = true →
  loadRecords_try out = Ok v →
  let h := fresh (dom (inflight w)) in
  let w1 := run info w [AddNew; FormSave data] in
  let w2 := step info w1 (Settle h (Resolved r)) in
  let h' := fresh (dom (delete h (inflight w1))) in
  let w3 := step info w2 (Settle h' out) in
  mode (app w3) = Closed ∧
  target (app w3) = None ∧
  records (app w3) = v ∧
  loading (app w3) = false ∧
  toasts w3 = toasts w ++ [ToastSuccess "Record created successfully"] ∧
  console w3 = console w ∧
  activeSection (app w3) = activeSection (app w) ∧
  inflight w3 = inflight w.
Proof.
  intros Hr Hv h w1 w2 h' w3.
  assert (Hh : inflight w1 !! h =
               Some (handleSave_request info (app (step info w AddNew)) data,
                     K_handleSave false (activeSection (app w))))
    by exact (fetch_lookup_new _ _ (step info w AddNew)).
  assert (Hdel : delete h (inflight w1) = inflight w).
  { subst w1. simpl. apply (delete_insert_id (inflight w)), fresh_lookup_None. }
  assert (Hw2 : w2 = loadRecords info (activeSection (app w))
                       (setEditingRecord None (setDialogOpen false
                          (toast_success "Record created successfully" (settle h w1))))).
  { subst w2. rewrite (step_settle _ _ _ _ _ _ Hh). cbn [resume].
    unfold handleSave_resume. by rewrite (handleSave_try_ok _ Hr). }
  assert (Hh' : inflight w2 !! h' =
                Some (loadRecords_request info (activeSection (app w)),
                      K_loadRecords (activeSection (app w)))).
  { rewrite Hw2. apply loadRecords_lookup_new. }
  assert (Hin2 : inflight w2 =
                 <[h' := (loadRecords_request info (activeSection (app w)),
                          K_loadRecords (activeSection (app w)))]>
                   (delete h (inflight w1)))
    by (by rewrite Hw2).
  subst w3. rewrite (step_settle _ _ _ _ _ _ Hh'). cbn [resume].
  unfold loadRecords_resume. rewrite Hv.
  repeat split; try (by rewrite Hw2).
  change (delete h' (inflight w2) = inflight w).
  rewrite Hin2, delete_insert_id; [exact Hdel|apply fresh_lookup_None].
Qed.

Lemma X10_create_then_reload_witness :
  let w := run demo (mount demo) [GetStarted; TabChange grant] in
  let r := {| status := 201; body := BodyJson (JObj [("id", JStr "g1"); ("title", JStr "X")]) |} in
  let out := respond 200 (JObj [("records", JArr [JObj [("id", JStr "g1"); ("title", JStr "X")]])]) in
  let h := fresh (dom (inflight w)) in
  let w1 := run demo w [AddNew; FormSave (JObj [("title", JStr "X")])] in
  let w2 := step demo w1 (Settle h (Resolved r)) in
  let h' := fresh (dom (delete h (inflight w1))) in
  let w3 := step demo w2 (Settle h' out) in
  mode (app w3) = Closed ∧
  target (app w3) = None ∧
  records (app w3) = JArr [JObj [("id", JStr "g1"); ("title", JStr "X")]] ∧
  loading (app w3) = false ∧
  toasts w3 = toasts w ++ [ToastSuccess "Record created successfully"] ∧
  console w3 = console w ∧
  activeSection (app w3) = activeSection (app w) ∧
  inflight w3 = inflight w.
Proof.
  apply (X10_create_then_reload demo
           (run demo (mount demo) [GetStarted; TabChange grant])
           (JObj [("title", JStr "X")])
           {| status := 201; body := BodyJson (JObj [("id", JStr "g1"); ("title", JStr "X")]) |}
           (respond 200 (JObj [("records", JArr [JObj [("id", JStr "g1"); ("title", JStr "X")]])]))
           (JArr [JObj [("id", JStr "g1"); ("title", JStr "X")]]));
    reflexivity.
Defined.

(** X11: in every state reached from the first render [records] is
    truthy: it is never [null], [false], [0] or the empty string, since a
    falsy [records] member of a list response is replaced by the empty
    array; so reading [records.length] never throws. *)
Theorem X11_records_truthy info evs :
  let st := app (run info (mount info) evs) in
  truthy (Some (records st)) = true ∧ ∃ b, length_is_0 (records st) = Ok b.
Proof.
  simpl.
  assert (Hlen : ∀ v, truthy (Some v) = true → ∃ b, length_is_0 v = Ok b).
  { intros [| | | | |] Hv; simpl in *; first [discriminate|by eexists]. }
  assert (Hinv : truthy (Some (records (app (run info (mount info) evs)))) = true).
  { apply (run_invariant info (λ w, truthy (Some (records (app w))) = true)); [|done].
    intros w ev Hw. destruct ev as [| |v| |r|i c|o| |d|h out]; simpl; try done.
    - unfold onValueChange. by case_decide.
    - unfold handleDelete. by destruct c.
    - destruct (inflight w !! h) as [[req k]|]; [|done].
      destruct k as [s|e s|s]; simpl.
      + unfold loadRecords_resume.
        destruct (loadRecords_try out) as [v|m] eqn:Hv; simpl; [|done].
        destruct out as [m|r]; simpl in Hv; [done|].
        destruct (ok r); simpl in Hv.
        * destruct (response_json r) as [data|]; simpl in Hv; [|done].
          destruct (get_prop data "records") as [rs|]; simpl in Hv; [|done].
          injection Hv as <-. unfold js_or.
          destruct rs as [x|]; [|done]. by destruct (truthy (Some x)) eqn:Hx.
        * destruct (throw_error_of_throws (A:=json) r "Failed to load records") as [m Hm].
          rewrite Hm in Hv. discriminate.
      + unfold handleSave_resume. by destruct (handleSave_try out).
      + unfold handleDelete_resume. by destruct (handleDelete_try out). }
  split; [done|]. by apply Hlen.
Qed.

(** ** Paths *)

Lemma section_name_inj s1 s2 : section_name s1 = section_name s2 → s1 = s2.
Proof. destruct s1, s2; simpl; intros H; first [reflexivity|discriminate H]. Qed.

(** X12: paths do not collide.  Two sections have the same collection
    path only if they are the same section, two record paths are equal
    only for the same section and the same id, and no record path is a
    collection path: a list, a create, an update and a delete each reach
    the collection or record they name. *)
Theorem X12_paths_distinct info s1 s2 i1 i2 :
  (collection_url info s1 = collection_url info s2 ↔ s1 = s2) ∧
  (record_url info s1 i1 = record_url info s2 i2 ↔ s1 = s2 ∧ i1 = i2) ∧
  record_url info s1 i1 ≠ collection_url info s2.
Proof.
  unfold collection_url, record_url. repeat split.
  - intros H. apply (inj (String.append _)) in H. apply (inj (String.append _)) in H.
    by apply section_name_inj.
  - by intros ->.
  - apply (inj (String.append _)) in H. apply (inj (String.append _)) in H.
    destruct s1, s2; simpl in H; first [reflexivity|discriminate H].
  - apply (inj (String.append _)) in H. apply (inj (String.append _)) in H.
    destruct s1, s2; simpl in H; first [by simplify_eq|discriminate H].
  - by intros [-> ->].
  - intros H. apply (inj (String.append _)) in H. apply (inj (String.append _)) in H.
    destruct s1, s2; simpl in H; discriminate H.
Qed.

(** ** Uploading *)

(** X13: the body of a 2xx upload response is not checked either.  The
    promise resolves with the body's [url] and [fileName] members, each
    [undefined] when the body has none, and rejects only when the body is
    not JSON or is [null]. *)
Theorem X13_upload_body_unchecked r :
  ok r = true →
  match body r with
  | BodyInvalid m => handleFileUpload_resume (Resolved r) = Throw m
  | BodyJson JNull => handleFileUpload_resume (Resolved r) = Throw (TypeError_null "url")
  | BodyJson (JObj members) =>
      handleFileUpload_resume (Resolved r) =
      Ok (member "url" members, member "fileName" members)
  | BodyJson _ => handleFileUpload_resume (Resolved r) = Ok (None, None)
  end.
Proof.
  intros Hr. unfold handleFileUpload_resume, response_json. rewrite Hr. simpl.
  destruct (body r) as [[]|]; reflexivity.
Qed.

Lemma X13_upload_body_unchecked_witness :
  handleFileUpload_resume
    (respond 200 (JObj [("url", JStr "https://files/a.pdf"); ("fileName", JStr "a.pdf")])) =
  Ok (member "url" [("url", JStr "https://files/a.pdf"); ("fileName", JStr "a.pdf")],
      member "fileName" [("url", JStr "https://files/a.pdf"); ("fileName", JStr "a.pdf")]).
Proof.
  apply (X13_upload_body_unchecked
           {| status := 200;
              body := BodyJson (JObj [("url", JStr "https://files/a.pdf");
                                      ("fileName", JStr "a.pdf")]) |}).
  reflexivity.
Defined.

(** ** The section table *)

Lemma sectionConfig_get_total {A} section key (proj : SectionConfig → A) :
  ∃ config, own_property (section_name section) sectionConfig = Some config ∧
            sectionConfig_get section key proj = Ok (proj config).
Proof. destruct section; eexists; split; reflexivity. Qed.

(** X14: the section table, the section type and the tabs agree.  The
    keys of [sectionConfig] are the values of the tab triggers, in the
    same order and without repetition; they are exactly the strings of
    [SectionType]; so [sectionConfig[activeSection]] is always defined,
    and each entry has at least one display field and a title that is not
    empty. *)
Theorem X14_section_table_total section :
  Object_keys sectionConfig = TabsTrigger_values ∧
  NoDup (Object_keys sectionConfig) ∧
  (∀ key, key ∈ Object_keys sectionConfig ↔ ∃ s, key = section_name s) ∧
  ∃ config,
    own_property (section_name section) sectionConfig = Some config ∧
    displayFields config ≠ [] ∧
    title config ≠ "".
Proof.
  split; [reflexivity|]. split; [apply (bool_decide_unpack _); by vm_compute|].
  split.
  - intros key. split.
    + unfold Object_keys; simpl. rewrite !elem_of_cons, elem_of_nil.
      intros [->|[->|[->|[->|[->|[->|[->|[->|[->|[]]]]]]]]]].
      * by exists funding_opportunity.
      * by exists application.
      * by exists budget.
      * by exists budget_code.
      * by exists grant.
      * by exists subgrantee_award.
      * by exists contract.
      * by exists invoice.
      * by exists compliance.
    + intros [s ->]. unfold Object_keys; simpl. rewrite !elem_of_cons.
      destruct s; simpl; tauto.
  - destruct section; eexists; (split; [reflexivity|]); simpl; by split.
Qed.

(** X15: the dialog title is Edit or Create New, by whether a record is
    remembered, then a space, then the section title less its last
    character.  That is the singular of the title for the sections whose
    title ends in s, Funding Opportunities coming out as Funding
    Opportunitie; for Budget and Compliance, whose titles do not, a letter
    of the word is cut: Budge, Complianc. *)
Theorem X15_dialog_title st :
  let noun :=
    match activeSection st with
    | funding_opportunity => "Funding Opportunitie"
    | application => "Application"
    | budget => "Budge"
    | budget_code => "Budget Code"
    | grant => "Grant"
    | subgrantee_award => "Sub Grantee Award"
    | contract => "Contract"
    | invoice => "Invoice"
    | compliance => "Complianc"
    end in
  ∃ config last,
    App_config st = Ok config ∧
    title config = noun +:+ String last "" ∧
    DialogTitle_text st =
      Ok ((match target st with Some _ => "Edit" | None => "Create New" end)
            +:+ " " +:+ noun) ∧
    (String last "" = "s" ↔ activeSection st ≠ budget ∧ activeSection st ≠ compliance).
Proof.
  unfold DialogTitle_text, App_config, target.
  destruct (activeSection st) eqn:Hs; simpl; eexists _, _;
    (split; [reflexivity|]); (split; [reflexivity|]); (split; [reflexivity|]);
    split; try done; try (by intros [? ?]).
Qed.

(** ** The table *)

Lemma mapM_result_cons {A B} (f : A → result B) x l :
  mapM f (x :: l) =
  match f x with
  | Ok y => match mapM f l with
            | Ok k => Ok (y :: k)
            | Throw m => Throw m
            end
  | Throw m => Throw m
  end.
Proof. reflexivity. Qed.

Lemma mapM_Ok {A B} (f : A → result B) l k :
  mapM f l = Ok k ↔ Forall2 (λ x y, f x = Ok y) l k.
Proof.
  revert k. induction l as [|x l IH]; intros k.
  - change (Ok [] = Ok k ↔ Forall2 (λ x y, f x = Ok y) [] k).
    split.
    + intros [= <-]. constructor.
    + intros ->%Forall2_nil_inv_l. reflexivity.
  - rewrite mapM_result_cons. destruct (f x) as [y|m] eqn:Hx.
    + destruct (mapM f l) as [k'|m] eqn:Hl.
      * split.
        -- intros [= <-]. constructor; [done|by apply IH].
        -- inversion 1 as [|? y' ? k'' Hy Hk]; subst.
           apply IH in Hk. congruence.
      * split; [done|]. inversion 1 as [|? y' ? k'' Hy Hk]; subst.
        apply IH in Hk. congruence.
    + split; [done|]. inversion 1; subst. congruence.
Qed.

Lemma mapM_is_Ok {A B} (f : A → result B) l :
  (∃ k, mapM f l = Ok k) ↔ Forall (λ x, ∃ y, f x = Ok y) l.
Proof.
  split.
  - intros [k Hk]. apply mapM_Ok in Hk.
    induction Hk; constructor; eauto.
  - induction 1 as [|x l [y Hy] _ [k Hk]]; [by exists []|].
    rewrite mapM_result_cons, Hy, Hk. by eexists.
Qed.

Lemma TableRow_of_is_Ok displayed record :
  (∃ row, TableRow_of displayed record = Ok row) ↔ record ≠ JNull.
Proof.
  unfold TableRow_of. split.
  - intros [row Hrow] ->. destruct displayed; discriminate.
  - intros Hrecord.
    assert (Hget : ∀ key, ∃ v, get_prop record key = Ok v)
      by (intros key; destruct record; first [congruence|by eexists]).
    destruct (proj2 (mapM_is_Ok
                (λ field, v ← get_prop record field; Ok (js_or v (JStr "-"))) displayed))
      as [cells ->].
    + apply Forall_forall. intros field _.
      destruct (Hget field) as [v ->]. by eexists.
    + destruct (Hget "id") as [key Hkey]. simpl. rewrite Hkey. by eexists.
Qed.

Lemma TableRow_of_null field rest :
  TableRow_of (field :: rest) JNull = Throw (TypeError_null field).
Proof. reflexivity. Qed.

Lemma mapM_Throw {A B} (f : A → result B) l m :
  Forall (λ x, f x = Throw m ∨ ∃ y, f x = Ok y) l →
  Exists (λ x, f x = Throw m) l →
  mapM f l = Throw m.
Proof.
  induction 1 as [|x l Hx _ IH]; intros Hex; [by inversion Hex|].
  rewrite mapM_result_cons. destruct Hx as [->|[y Hy]]; [done|].
  rewrite Hy. inversion Hex as [? ? Hhd|? ? Htl]; subst; [congruence|].
  by rewrite IH.
Qed.

(** X16: when a table is shown, [loading] is off, [records] is an array
    that is not empty, the head is the section's display fields, and the
    rows are the records, one row each and in the same order: the key of
    a row is the record's [id], and it has one cell for each display
    field, holding the record's value for that field, or "-" when the
    value is missing or falsy. *)
Theorem X16_table_rows section st head rows :
  CardContent section st = Ok (TableView head rows) →
  loading st = false ∧
  sectionConfig_get section "displayFields" displayFields = Ok head ∧
  ∃ items,
    records st = JArr items ∧ items ≠ [] ∧
    Forall2 (λ record row,
               get_prop record "id" = Ok row.1 ∧
               Forall2 (λ field cell,
                          ∃ v, get_prop record field = Ok v ∧
                               cell = js_or v (JStr "-"))
                       head row.2)
            items rows.
Proof.
  unfold CardContent. destruct (loading st); [done|].
  destruct (length_is_0 (records st)) as [[]|] eqn:Hlen; simpl; try done.
  destruct (sectionConfig_get section "displayFields" displayFields) as [hd|];
    simpl; [|done].
  destruct (records st) as [| | | |items|]; simpl; try done.
  destruct (mapM (TableRow_of hd) items) as [rs|] eqn:Hrows; simpl; [|done].
  intros [= <- <-]. split; [done|]. split; [done|].
  exists items. split; [done|]. split.
  { intros ->. simpl in Hlen. discriminate. }
  apply mapM_Ok in Hrows. eapply Forall2_impl; [exact Hrows|].
  intros record [key cells]. unfold TableRow_of.
  destruct (mapM _ hd) as [cs|] eqn:Hcells; simpl; [|done].
  destruct (get_prop record "id") as [k|]; simpl; [|done].
  intros [= <- <-]. split; [done|]. simpl.
  apply mapM_Ok in Hcells. eapply Forall2_impl; [exact Hcells|].
  intros field cell. simpl.
  destruct (get_prop record field) as [v|]; simpl; [|done].
  intros [= <-]. by exists v.
Qed.

Lemma X16_table_rows_witness :
  let st := {| showLanding := false; activeSection := invoice;
               records := JArr [JObj [("id", JStr "i1"); ("vendor", JStr "Acme");
                                      ("amountRequested", JNum 0)]];
               loading := false; dialogOpen := false; editingRecord := None |} in
  let head := ["vendor"; "amountRequested"; "invoiceDate"] in
  let rows := [(Some (JStr "i1"), [JStr "Acme"; JStr "-"; JStr "-"])] in
  loading st = false ∧
  sectionConfig_get invoice "displayFields" displayFields = Ok head ∧
  ∃ items,
    records st = JArr items ∧ items ≠ [] ∧
    Forall2 (λ record row,
               get_prop record "id" = Ok row.1 ∧
               Forall2 (λ field cell,
                          ∃ v, get_prop record field = Ok v ∧
                               cell = js_or v (JStr "-"))
                       head row.2)
            items rows.
Proof.
  apply (X16_table_rows invoice
           {| showLanding := false; activeSection := invoice;
              records := JArr [JObj [("id", JStr "i1"); ("vendor", JStr "Acme");
                                     ("amountRequested", JNum 0)]];
              loading := false; dialogOpen := false; editingRecord := None |}
           ["vendor"; "amountRequested"; "invoiceDate"]
           [(Some (JStr "i1"), [JStr "Acme"; JStr "-"; JStr "-"])]).
  reflexivity.
Defined.

Lemma js_or_truthy a b : truthy (Some b) = true → truthy (Some (js_or a b)) = true.
Proof.
  intros Hb. unfold js_or. destruct a as [v|]; [|done].
  by destruct (truthy (Some v)) eqn:Hv.
Qed.

(** X17: no cell of a table is falsy.  A value that is [0], [false], the
    empty string or [null] is shown as "-", the same as a missing one, so
    an amount of zero cannot be told from no amount. *)
Theorem X17_no_falsy_cell section st head rows :
  CardContent section st = Ok (TableView head rows) →
  Forall (λ row, Forall (λ cell, truthy (Some cell) = true) row.2) rows.
Proof.
  intros Hview. apply X16_table_rows in Hview as (_ & _ & items & _ & _ & Hrows).
  induction Hrows as [|record row items rows [_ Hcells] _ IH]; constructor; [|done].
  clear IH. induction Hcells as [|field cell hd cells (v & _ & ->) _ IH];
    constructor; [|done].
  by apply js_or_truthy.
Qed.

Lemma X17_no_falsy_cell_witness :
  Forall (λ row : jsval * list json, Forall (λ cell, truthy (Some cell) = true) row.2)
    [(Some (JStr "i1"), [JStr "Acme"; JStr "-"; JStr "-"])].
Proof.
  apply (X17_no_falsy_cell invoice
           {| showLanding := false; activeSection := invoice;
              records := JArr [JObj [("id", JStr "i1"); ("vendor", JStr "Acme");
                                     ("amountRequested", JNum 0)]];
              loading := false; dialogOpen := false; editingRecord := None |}
           ["vendor"; "amountRequested"; "invoiceDate"]).
  reflexivity.
Defined.

(** X18: a [null] in the list breaks the page.  When loading is off and
    [records] is an array that holds a [null], building the card content
    of any section throws: the first display field of the section is read
    of [null]. *)
Theorem X18_null_record_breaks_render section st items :
  records st = JArr items →
  loading st = false →
  JNull ∈ items →
  ∃ config field rest,
    own_property (section_name section) sectionConfig = Some config ∧
    displayFields config = field :: rest ∧
    CardContent section st = Throw (TypeError_null field).
Proof.
  intros Hrecords Hloading Hnull.
  assert (Hconfig : ∃ config field rest,
            own_property (section_name section) sectionConfig = Some config ∧
            displayFields config = field :: rest ∧
            sectionConfig_get section "displayFields" displayFields = Ok (field :: rest))
    by (destruct section; eexists _, _, _; repeat split; reflexivity).
  destruct Hconfig as (config & field & rest & Hown & Hfields & Hget).
  exists config, field, rest. split; [done|]. split; [done|].
  unfold CardContent. rewrite Hloading, Hrecords.
  destruct items as [|record items]; [by apply elem_of_nil in Hnull|].
  cbn [length_is_0 mbind result_bind]. rewrite Hget. cbn [mbind result_bind].
  unfold records_map.
  rewrite (mapM_Throw (TableRow_of (field :: rest)) (record :: items)
             (TypeError_null field)); [done| |].
  - apply Forall_forall. intros x _.
    destruct x; first [by left|right; by apply TableRow_of_is_Ok].
  - apply Exists_exists. exists JNull. by split.
Qed.

Lemma X18_null_record_breaks_render_witness :
  ∃ config field rest,
    own_property (section_name grant) sectionConfig = Some config ∧
    displayFields config = field :: rest ∧
    CardContent grant
      {| showLanding := false; activeSection := grant;
         records := JArr [JObj [("id", JStr "g1")]; JNull];
         loading := false; dialogOpen := false; editingRecord := None |} =
    Throw (TypeError_null field).
Proof.
  apply (X18_null_record_breaks_render grant
           {| showLanding := false; activeSection := grant;
              records := JArr [JObj [("id", JStr "g1")]; JNull];
              loading := false; dialogOpen := false; editingRecord := None |}
           [JObj [("id", JStr "g1")]; JNull]); [reflexivity|reflexivity|].
  apply elem_of_cons; right. apply elem_of_cons; left. reflexivity.
Defined.

(** X19: a list response whose [records] member is truthy and not an
    array is taken as a success, with no toast, and then the card content
    of no section can be built: unless that value has a [length] of 0,
    [records.map] is not a function. *)
Theorem X19_non_array_records_break_render info w h req s r members v section :
  inflight w !! h = Some (req, K_loadRecords s) →
  ok r = true →
  body r = BodyJson (JObj members) →
  member "records" members = Some v →
  truthy (Some v) = true →
  (∀ items, v ≠ JArr items) →
  length_is_0 v = Ok false →
  let w' := step info w (Settle h (Resolved r)) in
  records (app w') = v ∧
  toasts w' = toasts w ∧
  CardContent section (app w') = Throw "records.map is not a function".
Proof.
  intros Hh Hr Hbody Hmember Hv Harr Hlen w'.
  assert (Htry : loadRecords_try (Resolved r) = Ok v).
  { unfold loadRecords_try, response_json. rewrite Hr, Hbody. simpl.
    rewrite Hmember. change (Ok (js_or (Some v) (JArr [])) = Ok v).
    unfold js_or. by rewrite Hv. }
  destruct (X3_list_success info w h req s (Resolved r) v Hh Htry)
    as (Hrec & Hload & Htoasts & _).
  fold w' in Hrec, Hload, Htoasts.
  split; [done|]. split; [done|].
  unfold CardContent. rewrite Hload, Hrec, Hlen. simpl.
  destruct (sectionConfig_get_total section "displayFields" displayFields)
    as (config & _ & ->). simpl.
  destruct v as [| | | |items|]; simpl; try done.
  by destruct (Harr items).
Qed.

Lemma X19_non_array_records_break_render_witness :
  let r := {| status := 200; body := BodyJson (JObj [("records", JStr "none")]) |} in
  let w' := step demo (mount demo) (Settle 0 (Resolved r)) in
  records (app w') = JStr "none" ∧
  toasts w' = toasts (mount demo) ∧
  CardContent funding_opportunity (app w') = Throw "records.map is not a function".
Proof.
  apply (X19_non_array_records_break_render demo (mount demo) 0
           (loadRecords_request demo funding_opportunity) funding_opportunity
           {| status := 200; body := BodyJson (JObj [("records", JStr "none")]) |}
           [("records", JStr "none")] (JStr "none") funding_opportunity);
    try reflexivity.
  intros items. discriminate.
Defined.

(** ** Repeated submissions *)

(** X20: nothing holds a save or a confirmed delete back while other calls
    are in flight.  Each one adds a call of its own and leaves the others
    in flight, so a save made twice before the first answer arrives is
    sent twice. *)
Theorem X20_every_submission_is_sent info w data i :
  inflight w ⊆ inflight (step info w (FormSave data)) ∧
  size (inflight (step info w (FormSave data))) = S (size (inflight w)) ∧
  inflight w ⊆ inflight (step info w (DeleteClick i true)) ∧
  size (inflight (step info w (DeleteClick i true))) = S (size (inflight w)).
Proof.
  simpl. unfold handleSave, handleDelete, fetch; simpl.
  pose proof (fresh_lookup_None (inflight w)) as Hfresh.
  repeat split.
  - by apply insert_subseteq.
  - by apply map_size_insert_None.
  - by apply insert_subseteq.
  - by apply map_size_insert_None.
Qed.
